(** * SentraAI front end: the chat page's message-exchange state machine

    A shallow embedding of [ChatInput] and [ChatPage] (the page component
    with [handleKeyDown], [handleSubmit] and [handleSend]) and of the view
    ([ChatBubble] and the conversation column), together with the facts the
    specification states about them and further properties of the code.

    The page is single-threaded and event driven.  Its React state
    ([messages], [input], [isLoading]) and the ref [threadIdRef] become one
    record; every event handler is a function on that record.  The
    asynchronous [handleSend] is split at its suspension point: the part that
    runs up to [await fetch(...)], and the continuation that runs once the
    request has settled. *)

From Stdlib Require Import String Ascii List Arith NArith Bool Lia SpecFloat.
Import ListNotations.

Set Warnings "-register-all".

(** ** JavaScript strings *)

Module JsString.

(** A JavaScript string is a sequence of UTF-16 code units. *)
Definition t := list N.

Fixpoint lit (s : string) : t :=
  match s with
  | EmptyString => []
  | String c r => N_of_ascii c :: lit r
  end.

Fixpoint eqb (a b : t) : bool :=
  match a, b with
  | [], [] => true
  | x :: a', y :: b' => N.eqb x y && eqb a' b'
  | _, _ => false
  end.

(** [WhiteSpace] and [LineTerminator] of ECMAScript, the code points that
    [String.prototype.trim] strips.  All of them lie in the basic plane, so
    the test is made on single code units. *)
Definition isWhiteSpace (c : N) : bool :=
  ((9 <=? c) && (c <=? 13) || (c =? 32) || (c =? 160) || (c =? 5760)
   || (8192 <=? c) && (c <=? 8202)
   || (c =? 8232) || (c =? 8233) || (c =? 8239) || (c =? 8287)
   || (c =? 12288) || (c =? 65279))%N.

Fixpoint trimStart (s : t) : t :=
  match s with
  | [] => []
  | c :: r => if isWhiteSpace c then trimStart r else s
  end.

Definition trimEnd (s : t) : t := rev (trimStart (rev s)).

Definition trim (s : t) : t := trimEnd (trimStart s).

(** Truthiness of a string: the empty string is the only falsy one. *)
Definition truthy (s : t) : bool :=
  match s with [] => false | _ :: _ => true end.

End JsString.

Definition jsstring : Type := JsString.t.

(** ** JavaScript values and JSON texts *)

(** The values the page handles: what [response.json()] can produce, plus
    [undefined].  An object is the list of its own properties in enumeration
    order. *)
Inductive jsval : Type :=
| VUndefined
| VNull
| VBool (b : bool)
| VNum (x : spec_float)
| VStr (s : jsstring)
| VArr (items : list jsval)
| VObj (props : list (jsstring * jsval)).

(** [ToBoolean]. *)
Definition ToBoolean (v : jsval) : bool :=
  match v with
  | VUndefined | VNull => false
  | VBool b => b
  | VNum (S754_zero _) | VNum S754_nan => false
  | VNum _ => true
  | VStr s => JsString.truthy s
  | VArr _ | VObj _ => true
  end.

Fixpoint assoc {A : Type} (k : jsstring) (l : list (jsstring * A)) : option A :=
  match l with
  | [] => None
  | (k', v) :: r => if JsString.eqb k' k then Some v else assoc k r
  end.

(** Property read [v.k].  On [undefined] and [null] it throws a TypeError
    ([None]); on an object it reads the own property, [undefined] when there
    is none; a primitive or an array has no such property.  The page reads
    only [response] and [thread_id], which no built-in prototype defines, so
    inherited properties are left out. *)
Definition Get (v : jsval) (k : jsstring) : option jsval :=
  match v with
  | VUndefined | VNull => None
  | VObj props =>
      match assoc k props with
      | Some x => Some x
      | None => Some VUndefined
      end
  | _ => Some VUndefined
  end.

(** A JSON text, up to layout: the document that [JSON.stringify] writes. *)
Inductive json : Type :=
| JNull
| JBool (b : bool)
| JNum (x : spec_float)
| JStr (s : jsstring)
| JArr (items : list json)
| JObj (members : list (jsstring * json)).

Definition serializeNumber (x : spec_float) : json :=
  match x with
  | S754_finite _ _ _ => JNum x
  | S754_zero _ => JNum (S754_zero false)
  | S754_infinity _ | S754_nan => JNull
  end.

(** [SerializeJSONProperty]: [None] is the [undefined] result, for which an
    object drops the property and an array writes [null]. *)
Fixpoint SerializeJSONProperty (v : jsval) : option json :=
  match v with
  | VUndefined => None
  | VNull => Some JNull
  | VBool b => Some (JBool b)
  | VNum x => Some (serializeNumber x)
  | VStr s => Some (JStr s)
  | VArr items =>
      Some (JArr
        ((fix elements (l : list jsval) : list json :=
            match l with
            | [] => []
            | x :: r =>
                match SerializeJSONProperty x with
                | Some j => j
                | None => JNull
                end :: elements r
            end) items))
  | VObj props =>
      Some (JObj
        ((fix members (l : list (jsstring * jsval)) : list (jsstring * json) :=
            match l with
            | [] => []
            | (k, x) :: r =>
                match SerializeJSONProperty x with
                | Some j => (k, j) :: members r
                | None => members r
                end
            end) props))
  end.

(** [JSON.stringify] of a value; [None] when the result is [undefined]. *)
Definition JSON_stringify (v : jsval) : option json := SerializeJSONProperty v.

(** Member of a JSON object text. *)
Definition member (k : jsstring) (j : json) : option json :=
  match j with
  | JObj ms => assoc k ms
  | _ => None
  end.

(** ** Messages *)

Inductive Sender : Type := user | ai.

(** [interface Message].  The declared type of [text] is [string]; the
    assistant's text is whatever value the server put in [response], so the
    field holds a value. *)
Record Message : Type := { text : jsval; sender : Sender }.

(** ** The input control, [ChatInput] *)

Module ChatInput.

Record KeyboardEvent : Type := { key : jsstring; shiftKey : bool }.

(** What a handler of the control does, in order: [event.preventDefault()]
    and the call of the [onSend] callback. *)
Inductive Effect : Type := PreventDefault | OnSend.

Section Props.
Variable value : jsstring.
Variable isLoading : bool.

Definition handleKeyDown (event : KeyboardEvent) : list Effect :=
  if JsString.eqb (key event) (JsString.lit "Enter") && negb (shiftKey event)
  then
    PreventDefault ::
    (if negb isLoading && JsString.truthy (JsString.trim value)
     then [OnSend] else [])
  else [].

Definition handleSubmit : list Effect :=
  PreventDefault ::
  (if negb isLoading && JsString.truthy (JsString.trim value)
   then [OnSend] else []).

(** [disabled] of the submit button. *)
Definition buttonDisabled : bool :=
  isLoading || negb (JsString.truthy (JsString.trim value)).

End Props.

(** Whether a handler called [onSend]. *)
Definition sends (effects : list Effect) : bool :=
  existsb (fun e => match e with OnSend => true | PreventDefault => false end)
          effects.

End ChatInput.

(** ** The network *)

(** The arguments of one [fetch] call. *)
Record Request : Type := {
  url : jsstring;
  method : jsstring;
  contentType : jsstring;
  body : option json
}.

(** A response: its status, and what [response.json()] gives ([None] when
    that promise rejects, the body not being JSON). *)
Record Response : Type := { status : N; parsed : option jsval }.

(** [response.ok]: the status is in the range 200-299. *)
Definition ok (r : Response) : bool :=
  ((200 <=? status r) && (status r <=? 299))%N.

(** How the promise of [fetch] settles. *)
Inductive Settled : Type :=
| Rejected
| Fulfilled (response : Response).

(** ** The conversation controller, [ChatPage] *)

Record State : Type := {
  messages : list Message;
  input : jsstring;
  isLoading : bool;
  threadIdRef : jsval;
  (** the [fetch] calls that have not settled yet, oldest first *)
  inflight : list Request;
  (** every [fetch] call made so far, oldest first *)
  issued : list Request
}.

Definition initial : State :=
  {| messages := []; input := []; isLoading := false; threadIdRef := VNull;
     inflight := []; issued := [] |}.

Definition setMessages (f : list Message -> list Message) (s : State) : State :=
  {| messages := f (messages s); input := input s; isLoading := isLoading s;
     threadIdRef := threadIdRef s; inflight := inflight s; issued := issued s |}.

Definition setInput (v : jsstring) (s : State) : State :=
  {| messages := messages s; input := v; isLoading := isLoading s;
     threadIdRef := threadIdRef s; inflight := inflight s; issued := issued s |}.

Definition setIsLoading (b : bool) (s : State) : State :=
  {| messages := messages s; input := input s; isLoading := b;
     threadIdRef := threadIdRef s; inflight := inflight s; issued := issued s |}.

Definition setThreadId (v : jsval) (s : State) : State :=
  {| messages := messages s; input := input s; isLoading := isLoading s;
     threadIdRef := v; inflight := inflight s; issued := issued s |}.

Definition fetch (r : Request) (s : State) : State :=
  {| messages := messages s; input := input s; isLoading := isLoading s;
     threadIdRef := threadIdRef s; inflight := inflight s ++ [r];
     issued := issued s ++ [r] |}.

Definition chatRequest (text : jsstring) (thread : jsval) : Request :=
  {| url := JsString.lit "http://localhost:8080/chat";
     method := JsString.lit "POST";
     contentType := JsString.lit "application/json";
     body := JSON_stringify
               (VObj [(JsString.lit "message", VStr text);
                      (JsString.lit "thread_id", thread)]) |}.

Definition errorMessage : Message :=
  {| text := VStr (JsString.lit
       "Sorry, I couldn't connect to the server. Please try again later.");
     sender := ai |}.

(** [handleSend] up to its first [await]: the guard, the user message, the
    three state updates and the [fetch] call.  [input] is the value the
    closure captured, so the request carries it although [setInput] has run. *)
Definition handleSend (s : State) : State :=
  if negb (JsString.truthy (JsString.trim (input s))) then s
  else
    let userMessage := {| text := VStr (input s); sender := user |} in
    let s1 := setMessages (fun prev => prev ++ [userMessage]) s in
    let s2 := setInput [] s1 in
    let s3 := setIsLoading true s2 in
    fetch (chatRequest (input s) (threadIdRef s3)) s3.

(** How a block ends: normally, or by a throw; either way with the state it
    has reached. *)
Inductive Completion : Type :=
| Normal (s : State)
| Throw (s : State).

(** The [try] block of [handleSend] from the point where [fetch] has settled:
    the [response.ok] test, [await response.json()], and the branch on
    [data.response]. *)
Definition tryBlock (o : Settled) (s : State) : Completion :=
  match o with
  | Rejected => Throw s
  | Fulfilled response =>
      if negb (ok response) then Throw s
      else
        match parsed response with
        | None => Throw s
        | Some data =>
            match Get data (JsString.lit "response") with
            | None => Throw s
            | Some reply =>
                if ToBoolean reply then
                  let aiMessage := {| text := reply; sender := ai |} in
                  let s1 := setMessages (fun prev => prev ++ [aiMessage]) s in
                  match Get data (JsString.lit "thread_id") with
                  | None => Throw s1
                  | Some thread => Normal (setThreadId thread s1)
                  end
                else Throw s
            end
        end
  end.

(** The rest of [handleSend]: [try], [catch] (the error is logged and the
    fixed message appended) and [finally]. *)
Definition handleSend_resume (o : Settled) (s : State) : State :=
  let caught :=
    match tryBlock o s with
    | Normal s1 => s1
    | Throw s1 => setMessages (fun prev => prev ++ [errorMessage]) s1
    end in
  setIsLoading false caught.

(** The page wires [onSend] to [handleSend]. *)
Fixpoint perform (effects : list ChatInput.Effect) (s : State) : State :=
  match effects with
  | [] => s
  | ChatInput.PreventDefault :: r => perform r s
  | ChatInput.OnSend :: r => perform r (handleSend s)
  end.

Fixpoint remove_nth {A : Type} (n : nat) (l : list A) : list A :=
  match l, n with
  | [], _ => []
  | _ :: r, O => r
  | x :: r, S m => x :: remove_nth m r
  end.

(** What can happen to the page: the three events of the input control, and
    the settling of the [n]-th request in flight.  An event is the call of its
    handler: [KeyDown] runs [handleKeyDown] and nothing else, and a form
    submission, whoever starts it, is the event [Submit].  The [disabled]
    attributes only take events away, so every event is allowed in every
    state. *)
Inductive Event : Type :=
| Change (v : jsstring)
| KeyDown (e : ChatInput.KeyboardEvent)
| Submit
| Settle (n : nat) (o : Settled).

Definition step (s : State) (e : Event) : State :=
  match e with
  | Change v => setInput v s
  | KeyDown k => perform (ChatInput.handleKeyDown (input s) (isLoading s) k) s
  | Submit => perform (ChatInput.handleSubmit (input s) (isLoading s)) s
  | Settle n o =>
      match nth_error (inflight s) n with
      | None => s
      | Some _ =>
          handleSend_resume o
            {| messages := messages s; input := input s;
               isLoading := isLoading s; threadIdRef := threadIdRef s;
               inflight := remove_nth n (inflight s); issued := issued s |}
      end
  end.

Definition run (s : State) (es : list Event) : State := fold_left step es s.

(** ** A key press as the browser delivers it *)

(** Whether a handler called [event.preventDefault()]. *)
Definition defaultPrevented (effects : list ChatInput.Effect) : bool :=
  existsb
    (fun e =>
       match e with
       | ChatInput.PreventDefault => true
       | ChatInput.OnSend => false
       end)
    effects.

(** A key pressed in the text field of [ChatInput].  [handleKeyDown] runs
    first.  The field sits in a [<form onSubmit={handleSubmit}>] that has a
    submit button, so when the handler has left the default action of an
    Enter press in place, the browser submits the form implicitly, unless
    that button is disabled: a [Submit] event follows. *)
Definition keyPress (s : State) (k : ChatInput.KeyboardEvent) : State :=
  let handled := step s (KeyDown k) in
  if negb (defaultPrevented
             (ChatInput.handleKeyDown (input s) (isLoading s) k))
     && JsString.eqb (ChatInput.key k) (JsString.lit "Enter")
     && negb (ChatInput.buttonDisabled (input handled) (isLoading handled))
  then step handled Submit
  else handled.

(** ** What the page shows *)

(** A rendered element (its tag, its [className], its children), or a text
    child: the value written between braces.  An empty [className] stands for
    an element that has none. *)
Inductive Node : Type :=
| Element (tag className : string) (children : list Node)
| Text (v : jsval).

(** The component [ChatBubble]. *)
Definition ChatBubble (message : Message) : Node :=
  let isUser := match sender message with user => true | ai => false end in
  let bubbleClasses :=
    "max-w-md md:max-w-2xl break-words rounded-xl px-4 py-2.5 shadow-md"%string in
  let alignmentClasses :=
    (if isUser then "self-end bg-blue-600 text-white"
     else "self-start bg-gray-700 text-gray-100")%string in
  Element "div"
    ("flex " ++ (if isUser then "justify-end" else "justify-start") ++ " w-full")%string
    [Element "div" (bubbleClasses ++ " " ++ alignmentClasses)%string
       [Element "p" "text-sm md:text-base whitespace-pre-wrap"
          [Text (text message)]]].

(** [messages.map((msg, index) => <ChatBubble key={index} message={msg} />)],
    from the given index on: each bubble with its key. *)
Fixpoint mapBubbles (index : nat) (l : list Message) : list (option nat * Node) :=
  match l with
  | [] => []
  | msg :: r => (Some index, ChatBubble msg) :: mapBubbles (S index) r
  end.

(** The hint shown while the conversation is empty. *)
Definition emptyHint : Node :=
  Element "div" "text-center text-gray-400 mt-8"
    [Element "p" ""
       [Text (VStr (JsString.lit
          "Start the conversation by sending a message."))]].

(** The bubble shown while a request is pending. *)
Definition thinking : Message :=
  {| text := VStr (JsString.lit "Thinking..."); sender := ai |}.

(** The children of the conversation column of [ChatPage], each with its key
    if it has one: the hint when [messages.length === 0], the bubbles, and the
    pending bubble when [isLoading]. *)
Definition conversationView (s : State) : list (option nat * Node) :=
  (if length (messages s) =? 0 then [(None, emptyHint)] else [])
  ++ mapBubbles 0 (messages s)
  ++ (if isLoading s then [(None, ChatBubble thinking)] else []).

(** What React accepts as a child written between braces: a string or a
    number is shown as text, a boolean, [null] and [undefined] show nothing,
    an array shows its items; a plain object is refused (objects are not
    valid as a React child) and the render throws. *)
Fixpoint validChild (v : jsval) : bool :=
  match v with
  | VObj _ => false
  | VArr items =>
      (fix all (l : list jsval) : bool :=
         match l with
         | [] => true
         | x :: r => validChild x && all r
         end) items
  | VUndefined | VNull | VBool _ | VNum _ | VStr _ => true
  end.

(** The render of the conversation column: the children above, or [None]
    when the text of a message is refused, the render throws and, the page
    having no error boundary, nothing is shown any more. *)
Definition renderColumn (s : State) : option (list (option nat * Node)) :=
  if forallb (fun m => validChild (text m)) (messages s)
  then Some (conversationView s)
  else None.

(** ** Vocabulary of the statements *)

(** The reply and the thread identifier of a round trip that succeeds: the
    status is 2xx, the body is JSON, and [data.response] is truthy.  [None]
    is a failed round trip.  [resume_success] and [resume_failure] below
    relate this reading to [handleSend_resume]. *)
Definition success (o : Settled) : option (jsval * jsval) :=
  match o with
  | Rejected => None
  | Fulfilled r =>
      if ok r then
        match parsed r with
        | None => None
        | Some data =>
            match Get data (JsString.lit "response"),
                  Get data (JsString.lit "thread_id") with
            | Some reply, Some thread =>
                if ToBoolean reply then Some (reply, thread) else None
            | _, _ => None
            end
        end
      else None
  end.

(** The Enter key, no modifier held. *)
Definition enterKey : ChatInput.KeyboardEvent :=
  {| ChatInput.key := JsString.lit "Enter"; ChatInput.shiftKey := false |}.

(** A submission attempt through the input control: a click on the submit
    button, or a key pressed in the text field. *)
Definition submissionAttempt (e : Event) : bool :=
  match e with
  | Submit | KeyDown _ => true
  | Change _ | Settle _ _ => false
  end.

(** One round trip: the user types [v] and submits, the request settles. *)
Definition exchange (round : jsstring * Settled) : list Event :=
  [Change (fst round); Submit; Settle 0 (snd round)].

Definition conversation (rounds : list (jsstring * Settled)) : list Event :=
  flat_map exchange rounds.

Definition validRound (round : jsstring * Settled) : Prop :=
  JsString.trim (fst round) <> [] /\ success (snd round) <> None.

(** The pending flag tells how many requests are in flight. *)
Definition oneAtATime (s : State) : Prop :=
  length (inflight s) = if isLoading s then 1 else 0.

(** The thread identifier a request body carries. *)
Definition carriedThread (r : Request) : option json :=
  match body r with
  | Some b => member (JsString.lit "thread_id") b
  | None => None
  end.

Definition carriedMessage (r : Request) : option json :=
  match body r with
  | Some b => member (JsString.lit "message") b
  | None => None
  end.

(** What the message list shows after the given rounds. *)
Definition transcript (rounds : list (jsstring * Settled)) : list Message :=
  flat_map
    (fun round =>
       [{| text := VStr (fst round); sender := user |};
        match success (snd round) with
        | Some (reply, _) => {| text := reply; sender := ai |}
        | None => errorMessage
        end])
    rounds.

(** Senders alternate, the user first. *)
Definition alternating (l : list Message) : Prop :=
  forall i m, nth_error l i = Some m ->
              sender m = if Nat.even i then user else ai.


(** The messages the user wrote. *)
Definition fromUser (m : Message) : bool :=
  match sender m with user => true | ai => false end.

(** A text that passes the guard has a code unit that is not white space. *)
Definition visible (v : jsstring) : Prop :=
  exists c, In c v /\ JsString.isWhiteSpace c = false.

(** The shape of every request the page makes. *)
Definition chatCall (r : Request) : Prop :=
  url r = JsString.lit "http://localhost:8080/chat" /\
  method r = JsString.lit "POST" /\
  contentType r = JsString.lit "application/json" /\
  exists v members,
    body r = Some (JObj ((JsString.lit "message", JStr v) :: members)) /\
    visible v.

(** The list alternates, and it has a user message waiting for its answer
    exactly when a request is pending. *)
Definition turnTaking (s : State) : Prop :=
  alternating (messages s) /\
  Nat.odd (length (messages s)) = isLoading s.

(** The request in flight, if any, is the last one issued. *)
Definition flightIsLast (s : State) : Prop :=
  if isLoading s
  then exists earlier r, issued s = earlier ++ [r] /\ inflight s = [r]
  else inflight s = [].

(** An event that types nothing. *)
Definition notTyping (e : Event) : Prop :=
  match e with
  | Change _ => False
  | KeyDown _ | Submit | Settle _ _ => True
  end.

(** ** Strings *)

Lemma eqb_eq (a b : jsstring) : JsString.eqb a b = true <-> a = b.
Proof.
  revert b; induction a as [|x a IH]; intros [|y b]; simpl;
    try (split; [discriminate | discriminate]); try tauto.
  rewrite andb_true_iff, N.eqb_eq, IH.
  split; [intros [-> ->]; reflexivity | intros E; injection E; auto].
Qed.

Lemma trimStart_nil (s : jsstring) :
  JsString.trimStart s = [] <-> forallb JsString.isWhiteSpace s = true.
Proof.
  induction s as [|c r IH]; simpl; [tauto|].
  destruct (JsString.isWhiteSpace c); simpl; [exact IH|].
  split; discriminate.
Qed.

Lemma trimStart_fixed (s : jsstring) :
  forallb JsString.isWhiteSpace (JsString.trimStart s) = true ->
  JsString.trimStart s = [].
Proof.
  induction s as [|c r IH]; simpl; [reflexivity|].
  destruct (JsString.isWhiteSpace c) eqn:W; [exact IH|].
  simpl; rewrite W; discriminate.
Qed.

Lemma forallb_rev {A : Type} (p : A -> bool) (l : list A) :
  forallb p (rev l) = forallb p l.
Proof.
  induction l as [|x l IH]; simpl; [reflexivity|].
  rewrite forallb_app, IH; simpl.
  rewrite andb_true_r; apply andb_comm.
Qed.

(** The trimmed string is empty exactly for the strings made of white space
    only, the empty one among them. *)
Lemma trim_nil (s : jsstring) :
  JsString.trim s = [] <-> forallb JsString.isWhiteSpace s = true.
Proof.
  unfold JsString.trim, JsString.trimEnd.
  rewrite <- trimStart_nil.
  split.
  - intros H.
    apply (f_equal (@rev N)) in H; rewrite rev_involutive in H; simpl in H.
    apply trimStart_nil in H; rewrite forallb_rev in H.
    apply trimStart_fixed; exact H.
  - intros ->; reflexivity.
Qed.

Lemma truthy_trim (s : jsstring) :
  JsString.truthy (JsString.trim s) = true <-> JsString.trim s <> [].
Proof.
  destruct (JsString.trim s); simpl; split; congruence.
Qed.

Lemma falsy_trim (s : jsstring) :
  JsString.trim s = [] -> JsString.truthy (JsString.trim s) = false.
Proof. intros ->; reflexivity. Qed.

(** ** The input control *)

Lemma sends_handleSubmit (value : jsstring) (loading : bool) :
  ChatInput.sends (ChatInput.handleSubmit value loading)
  = negb loading && JsString.truthy (JsString.trim value).
Proof.
  unfold ChatInput.handleSubmit.
  destruct (negb loading && JsString.truthy (JsString.trim value));
    reflexivity.
Qed.

(** The submit button is enabled exactly when a submission would call
    [onSend]. *)
Lemma buttonDisabled_sends (value : jsstring) (loading : bool) :
  ChatInput.buttonDisabled value loading
  = negb (ChatInput.sends (ChatInput.handleSubmit value loading)).
Proof.
  rewrite sends_handleSubmit; unfold ChatInput.buttonDisabled.
  destruct loading; destruct (JsString.truthy (JsString.trim value));
    reflexivity.
Qed.

(** The handler alone: [handleKeyDown] calls [onSend] exactly when the key
    is Enter, shift is not held, no request is pending and the trimmed text is
    not empty; with shift held, whatever the key, it does nothing. *)
Theorem enter_without_shift_sends
    (value : jsstring) (loading : bool) (event : ChatInput.KeyboardEvent) :
  (ChatInput.sends (ChatInput.handleKeyDown value loading event) = true <->
     ChatInput.key event = JsString.lit "Enter" /\
     ChatInput.shiftKey event = false /\
     loading = false /\
     JsString.trim value <> []) /\
  (ChatInput.shiftKey event = true ->
     ChatInput.handleKeyDown value loading event = []).
Proof.
  unfold ChatInput.handleKeyDown.
  rewrite <- truthy_trim, <- eqb_eq.
  destruct (JsString.eqb (ChatInput.key event) (JsString.lit "Enter"));
    destruct (ChatInput.shiftKey event); destruct loading;
    destruct (JsString.truthy (JsString.trim value)); simpl;
    intuition congruence.
Qed.

Lemma enter_without_shift_sends_witness :
  ChatInput.handleKeyDown (JsString.lit "Hello") false
    {| ChatInput.key := JsString.lit "Enter"; ChatInput.shiftKey := true |}
  = [] /\
  ChatInput.sends (ChatInput.handleKeyDown (JsString.lit "Hello") false enterKey)
  = true.
Proof.
  split.
  - apply (proj2 (enter_without_shift_sends (JsString.lit "Hello") false
                    {| ChatInput.key := JsString.lit "Enter";
                       ChatInput.shiftKey := true |})).
    reflexivity.
  - apply (proj1 (enter_without_shift_sends (JsString.lit "Hello") false
                    enterKey)).
    repeat split; simpl; discriminate.
Defined.

(** ** The controller, one handler at a time *)

Lemma handleSend_empty (s : State) :
  JsString.trim (input s) = [] -> handleSend s = s.
Proof.
  intros H; unfold handleSend; rewrite (falsy_trim _ H); reflexivity.
Qed.

Lemma handleSend_valid (s : State) :
  JsString.trim (input s) <> [] ->
  handleSend s =
  {| messages := messages s ++ [{| text := VStr (input s); sender := user |}];
     input := [];
     isLoading := true;
     threadIdRef := threadIdRef s;
     inflight := inflight s ++ [chatRequest (input s) (threadIdRef s)];
     issued := issued s ++ [chatRequest (input s) (threadIdRef s)] |}.
Proof.
  intros H; apply truthy_trim in H.
  unfold handleSend; rewrite H; reflexivity.
Qed.

Lemma step_Submit (s : State) :
  step s Submit =
  if negb (isLoading s) && JsString.truthy (JsString.trim (input s))
  then handleSend s else s.
Proof.
  simpl; unfold ChatInput.handleSubmit.
  destruct (negb (isLoading s) && JsString.truthy (JsString.trim (input s)));
    reflexivity.
Qed.

Lemma step_KeyDown (s : State) (k : ChatInput.KeyboardEvent) :
  step s (KeyDown k) =
  if JsString.eqb (ChatInput.key k) (JsString.lit "Enter")
     && negb (ChatInput.shiftKey k)
  then step s Submit else s.
Proof.
  rewrite step_Submit; unfold step, ChatInput.handleKeyDown.
  destruct (JsString.eqb (ChatInput.key k) (JsString.lit "Enter")
            && negb (ChatInput.shiftKey k)); [|reflexivity].
  destruct (negb (isLoading s) && JsString.truthy (JsString.trim (input s)));
    reflexivity.
Qed.

(** Pressing Enter and clicking the submit button do the same. *)
Lemma step_Enter (s : State) : step s (KeyDown enterKey) = step s Submit.
Proof. rewrite step_KeyDown; reflexivity. Qed.

Lemma attempt_cases (s : State) (e : Event) :
  submissionAttempt e = true -> step s e = s \/ step s e = step s Submit.
Proof.
  destruct e as [v|k| |n o]; simpl submissionAttempt; try discriminate; intros _.
  - rewrite step_KeyDown.
    destruct (JsString.eqb (ChatInput.key k) (JsString.lit "Enter")
              && negb (ChatInput.shiftKey k)); auto.
  - auto.
Qed.

Lemma attempt_while_loading (s : State) (e : Event) :
  isLoading s = true -> submissionAttempt e = true -> step s e = s.
Proof.
  intros L A; destruct (attempt_cases s e A) as [H|H]; [exact H|].
  rewrite H, step_Submit, L; reflexivity.
Qed.

Lemma attempt_when_empty (s : State) (e : Event) :
  JsString.trim (input s) = [] -> submissionAttempt e = true -> step s e = s.
Proof.
  intros T A; destruct (attempt_cases s e A) as [H|H]; [exact H|].
  rewrite H, step_Submit, (falsy_trim _ T), andb_false_r; reflexivity.
Qed.

Lemma submit_valid (s : State) :
  isLoading s = false -> JsString.trim (input s) <> [] ->
  step s Submit = handleSend s.
Proof.
  intros L T; apply truthy_trim in T.
  rewrite step_Submit, L, T; reflexivity.
Qed.

Lemma Get_defined (data : jsval) (k k' : jsstring) (v : jsval) :
  Get data k = Some v -> exists v', Get data k' = Some v'.
Proof.
  destruct data; simpl; try discriminate; intros _; eauto.
  destruct (assoc k' props); eauto.
Qed.

Lemma resume_success (o : Settled) (reply thread : jsval) (s : State) :
  success o = Some (reply, thread) ->
  handleSend_resume o s =
  {| messages := messages s ++ [{| text := reply; sender := ai |}];
     input := input s;
     isLoading := false;
     threadIdRef := thread;
     inflight := inflight s;
     issued := issued s |}.
Proof.
  unfold success, handleSend_resume, tryBlock.
  destruct o as [|r]; [discriminate|].
  destruct (ok r); cbn [negb]; [|discriminate].
  destruct (parsed r) as [data|]; [|discriminate].
  destruct (Get data (JsString.lit "response")) as [x|]; [|discriminate].
  destruct (Get data (JsString.lit "thread_id")) as [y|]; [|discriminate].
  destruct (ToBoolean x); [|discriminate].
  intros E; injection E as -> ->; reflexivity.
Qed.

Lemma resume_failure (o : Settled) (s : State) :
  success o = None ->
  handleSend_resume o s =
  {| messages := messages s ++ [errorMessage];
     input := input s;
     isLoading := false;
     threadIdRef := threadIdRef s;
     inflight := inflight s;
     issued := issued s |}.
Proof.
  unfold success, handleSend_resume, tryBlock.
  destruct o as [|r]; [reflexivity|].
  destruct (ok r); cbn [negb]; [|reflexivity].
  destruct (parsed r) as [data|]; [|reflexivity].
  destruct (Get data (JsString.lit "response")) as [x|] eqn:G; [|reflexivity].
  destruct (@Get_defined data _ (JsString.lit "thread_id") _ G) as [y ->].
  destruct (ToBoolean x); [discriminate|reflexivity].
Qed.

Lemma step_Settle (s : State) (n : nat) (o : Settled) :
  n < length (inflight s) ->
  step s (Settle n o) =
  handleSend_resume o
    {| messages := messages s; input := input s; isLoading := isLoading s;
       threadIdRef := threadIdRef s; inflight := remove_nth n (inflight s);
       issued := issued s |}.
Proof.
  intros H; simpl.
  destruct (nth_error (inflight s) n) eqn:E; [reflexivity|].
  apply nth_error_None in E; lia.
Qed.

Lemma step_Settle_idle (s : State) (n : nat) (o : Settled) :
  length (inflight s) <= n -> step s (Settle n o) = s.
Proof.
  intros H; simpl.
  apply nth_error_None in H; rewrite H; reflexivity.
Qed.

Lemma remove_nth_length {A : Type} (n : nat) (l : list A) :
  n < length l -> length (remove_nth n l) = length l - 1.
Proof.
  revert n; induction l as [|x l IH]; intros [|n]; simpl; try lia.
  intros H; rewrite IH by lia; lia.
Qed.

Lemma resume_frame (o : Settled) (s : State) :
  isLoading (handleSend_resume o s) = false /\
  input (handleSend_resume o s) = input s /\
  inflight (handleSend_resume o s) = inflight s /\
  issued (handleSend_resume o s) = issued s.
Proof.
  destruct (success o) as [[reply thread]|] eqn:E.
  - rewrite (resume_success o reply thread s E); simpl; auto.
  - rewrite (resume_failure o s E); simpl; auto.
Qed.

Lemma handleSend_cases (s : State) :
  handleSend s = s \/
  (JsString.trim (input s) <> [] /\
   handleSend s =
   {| messages := messages s ++ [{| text := VStr (input s); sender := user |}];
      input := [];
      isLoading := true;
      threadIdRef := threadIdRef s;
      inflight := inflight s ++ [chatRequest (input s) (threadIdRef s)];
      issued := issued s ++ [chatRequest (input s) (threadIdRef s)] |}).
Proof.
  destruct (JsString.trim (input s)) eqn:T.
  - left; apply handleSend_empty; exact T.
  - right; split; [discriminate|].
    apply handleSend_valid; rewrite T; discriminate.
Qed.

(** A submission attempt either does nothing or, no request pending, runs
    [handleSend] on a text that passes the guard. *)
Lemma attempt_effect (s : State) (e : Event) :
  submissionAttempt e = true ->
  step s e = s \/
  (isLoading s = false /\ JsString.trim (input s) <> [] /\
   step s e = handleSend s).
Proof.
  intros A; destruct (attempt_cases s e A) as [H|H]; [auto|].
  rewrite H, step_Submit.
  destruct (isLoading s); simpl; [auto|].
  destruct (JsString.truthy (JsString.trim (input s))) eqn:T; [|auto].
  right; repeat split; apply truthy_trim; exact T.
Qed.

(** ** Requests *)

Lemma carriedMessage_chatRequest (v : jsstring) (thread : jsval) :
  carriedMessage (chatRequest v thread) = Some (JStr v).
Proof. reflexivity. Qed.

Lemma carriedThread_chatRequest (v : jsstring) (thread : jsval) :
  carriedThread (chatRequest v thread) = SerializeJSONProperty thread.
Proof.
  unfold carriedThread, chatRequest, JSON_stringify; simpl.
  destruct (SerializeJSONProperty thread); reflexivity.
Qed.

(** ** Invariants of the page *)

Lemma step_oneAtATime (s : State) (e : Event) :
  oneAtATime s -> oneAtATime (step s e).
Proof.
  unfold oneAtATime; intros I.
  destruct e as [v|k| |n o].
  - exact I.
  - destruct (attempt_effect s (KeyDown k) eq_refl) as [->|(L & T & ->)];
      [exact I|].
    rewrite (handleSend_valid s T); simpl.
    rewrite L in I; rewrite length_app, I; reflexivity.
  - destruct (attempt_effect s Submit eq_refl) as [->|(L & T & ->)];
      [exact I|].
    rewrite (handleSend_valid s T); simpl.
    rewrite L in I; rewrite length_app, I; reflexivity.
  - destruct (Nat.lt_ge_cases n (length (inflight s))) as [H|H].
    + rewrite (step_Settle s n o H).
      destruct (resume_frame o
        {| messages := messages s; input := input s;
           isLoading := isLoading s; threadIdRef := threadIdRef s;
           inflight := remove_nth n (inflight s); issued := issued s |})
        as (-> & _ & -> & _); simpl.
      rewrite (remove_nth_length _ _ H).
      destruct (isLoading s); lia.
    + rewrite (step_Settle_idle s n o H); exact I.
Qed.

Lemma run_oneAtATime (es : list Event) (s : State) :
  oneAtATime s -> oneAtATime (run s es).
Proof.
  revert s; induction es as [|e es IH]; intros s I; [exact I|].
  apply IH, step_oneAtATime, I.
Qed.

Lemma reachable_oneAtATime (es : list Event) : oneAtATime (run initial es).
Proof. apply run_oneAtATime; reflexivity. Qed.



(** ** Submission guards *)

(** C2.  When the trimmed input is empty, a submission attempt (a click on
    submit, or a key pressed, Enter included) leaves the message list as it
    is, does not touch the pending flag and issues no request. *)
Theorem blank_submission_ignored (s : State) (e : Event) :
  JsString.trim (input s) = [] ->
  submissionAttempt e = true ->
  messages (step s e) = messages s /\
  isLoading (step s e) = isLoading s /\
  issued (step s e) = issued s /\
  inflight (step s e) = inflight s.
Proof.
  intros T A; rewrite (attempt_when_empty s e T A); auto.
Qed.

Lemma blank_submission_ignored_witness :
  let s := step initial (Change (JsString.lit "   ")) in
  messages (step s (KeyDown enterKey)) = messages s /\
  isLoading (step s (KeyDown enterKey)) = isLoading s /\
  issued (step s (KeyDown enterKey)) = issued s /\
  inflight (step s (KeyDown enterKey)) = inflight s.
Proof.
  apply (blank_submission_ignored
           (step initial (Change (JsString.lit "   "))) (KeyDown enterKey));
    reflexivity.
Defined.

(** C3.  In every state the page can reach, at most one request is in flight;
    and while the pending flag is set a submission attempt through the input
    control changes nothing: not the message list, not the thread identifier,
    and no request is issued. *)
Theorem pending_blocks_submission (es : list Event) (e : Event) :
  length (inflight (run initial es)) <= 1 /\
  (isLoading (run initial es) = true ->
   submissionAttempt e = true ->
   step (run initial es) e = run initial es /\
   length (messages (step (run initial es) e))
     = length (messages (run initial es)) /\
   threadIdRef (step (run initial es) e) = threadIdRef (run initial es) /\
   issued (step (run initial es) e) = issued (run initial es)).
Proof.
  split.
  - pose proof (reachable_oneAtATime es) as I; unfold oneAtATime in I.
    destruct (isLoading (run initial es)); lia.
  - intros L A; rewrite (attempt_while_loading _ e L A); auto.
Qed.

Lemma pending_blocks_submission_witness :
  let s := run initial [Change (JsString.lit "Hello"); Submit] in
  isLoading s = true /\ length (inflight s) = 1 /\ step s Submit = s.
Proof.
  split; [reflexivity|]. split; [reflexivity|].
  apply (proj2 (pending_blocks_submission
                  [Change (JsString.lit "Hello"); Submit] Submit));
    reflexivity.
Defined.

(** ** A key press on the page *)

(** With the browser's implicit submission, every Enter press comes to a
    submit, shift held or not; any other key changes nothing. *)
Lemma keyPress_cases (s : State) (k : ChatInput.KeyboardEvent) :
  keyPress s k =
  if JsString.eqb (ChatInput.key k) (JsString.lit "Enter")
  then step s Submit else s.
Proof.
  unfold keyPress; rewrite step_KeyDown; unfold ChatInput.handleKeyDown.
  destruct (JsString.eqb (ChatInput.key k) (JsString.lit "Enter"));
    cbn [andb]; [|rewrite andb_false_r; reflexivity].
  destruct (ChatInput.shiftKey k); cbn [negb defaultPrevented existsb andb];
    [|reflexivity].
  rewrite step_Submit; unfold ChatInput.buttonDisabled.
  destruct (isLoading s); cbn [orb negb andb]; [reflexivity|].
  destruct (JsString.truthy (JsString.trim (input s))); reflexivity.
Qed.

(** C8.  Shift+Enter does submit.  [handleKeyDown] skips the press, as the
    claim wants, but it leaves the default action in place: the form is
    submitted implicitly, [handleSubmit] calls [onSend], and the page appends
    the user's message and issues the request, as for a plain Enter. *)
Theorem shift_enter_submits (s : State) (k : ChatInput.KeyboardEvent) :
  ChatInput.key k = JsString.lit "Enter" ->
  ChatInput.shiftKey k = true ->
  isLoading s = false ->
  JsString.trim (input s) <> [] ->
  ChatInput.handleKeyDown (input s) (isLoading s) k = [] /\
  keyPress s k = keyPress s enterKey /\
  messages (keyPress s k) =
    messages s ++ [{| text := VStr (input s); sender := user |}] /\
  isLoading (keyPress s k) = true /\
  issued (keyPress s k) =
    issued s ++ [chatRequest (input s) (threadIdRef s)].
Proof.
  intros K SH L T.
  split.
  { unfold ChatInput.handleKeyDown; rewrite SH, andb_false_r; reflexivity. }
  rewrite !keyPress_cases.
  apply eqb_eq in K; rewrite K; cbn [enterKey ChatInput.key].
  replace (JsString.eqb (JsString.lit "Enter") (JsString.lit "Enter"))
    with true by reflexivity.
  split; [reflexivity|].
  rewrite (submit_valid s L T), (handleSend_valid s T); cbn [messages
    isLoading issued]; auto.
Qed.

Lemma shift_enter_submits_witness :
  let s := step initial (Change (JsString.lit "Hello")) in
  let shiftEnter :=
    {| ChatInput.key := JsString.lit "Enter"; ChatInput.shiftKey := true |} in
  ChatInput.handleKeyDown (input s) (isLoading s) shiftEnter = [] /\
  keyPress s shiftEnter = keyPress s enterKey /\
  messages (keyPress s shiftEnter) =
    messages s ++ [{| text := VStr (input s); sender := user |}] /\
  isLoading (keyPress s shiftEnter) = true /\
  issued (keyPress s shiftEnter) =
    issued s ++ [chatRequest (input s) (threadIdRef s)].
Proof.
  intros s shiftEnter.
  apply (shift_enter_submits s shiftEnter).
  - reflexivity.
  - reflexivity.
  - reflexivity.
  - simpl; discriminate.
Defined.

(** ** Failed round trips *)

(** The failures the specification names: the transport fails, the status is
    not 2xx, or the 2xx body lacks the reply field. *)
Lemma named_failures :
  success Rejected = None /\
  (forall r, ok r = false -> success (Fulfilled r) = None) /\
  (forall st data,
     Get data (JsString.lit "response") = Some VUndefined ->
     success (Fulfilled {| status := st; parsed := Some data |}) = None).
Proof.
  split; [reflexivity|]. split.
  - intros r H; unfold success; rewrite H; reflexivity.
  - intros st data G; unfold success.
    destruct (ok _); [|reflexivity].
    cbn [parsed]; rewrite G.
    destruct (Get data (JsString.lit "thread_id")); reflexivity.
Qed.

(** C4.  When a request in flight settles as a failure, exactly one assistant
    message with the fixed text is appended and the pending flag is cleared.
    [named_failures] shows that a transport error, a status outside 2xx and a
    2xx body without the reply field are failures. *)
Theorem failure_appends_apology (s : State) (n : nat) (o : Settled) :
  n < length (inflight s) ->
  success o = None ->
  messages (step s (Settle n o)) =
    messages s ++
    [{| text := VStr (JsString.lit
          "Sorry, I couldn't connect to the server. Please try again later.");
        sender := ai |}] /\
  isLoading (step s (Settle n o)) = false.
Proof.
  intros H F.
  rewrite (step_Settle s n o H), (resume_failure o _ F); simpl; auto.
Qed.

Lemma failure_appends_apology_witness :
  let s := run initial [Change (JsString.lit "Hello"); Submit] in
  messages (step s (Settle 0 Rejected)) =
    messages s ++
    [{| text := VStr (JsString.lit
          "Sorry, I couldn't connect to the server. Please try again later.");
        sender := ai |}] /\
  isLoading (step s (Settle 0 Rejected)) = false.
Proof.
  apply (failure_appends_apology
           (run initial [Change (JsString.lit "Hello"); Submit]) 0 Rejected).
  - simpl; lia.
  - reflexivity.
Defined.

Lemma handleSend_threadIdRef (s : State) :
  threadIdRef (handleSend s) = threadIdRef s.
Proof.
  destruct (handleSend_cases s) as [->|[_ ->]]; reflexivity.
Qed.

(** C7.  Only the settling of a request with a successful response changes
    the thread identifier: every other event, a failed round trip among them,
    leaves it as it was. *)
Theorem thread_id_changes_only_on_success (s : State) (e : Event) :
  (forall n o, e = Settle n o -> success o = None) ->
  threadIdRef (step s e) = threadIdRef s.
Proof.
  intros F; destruct e as [v|k| |n o].
  - reflexivity.
  - destruct (attempt_effect s (KeyDown k) eq_refl) as [->|(_ & _ & ->)];
      [reflexivity | apply handleSend_threadIdRef].
  - destruct (attempt_effect s Submit eq_refl) as [->|(_ & _ & ->)];
      [reflexivity | apply handleSend_threadIdRef].
  - destruct (Nat.lt_ge_cases n (length (inflight s))) as [H|H].
    + rewrite (step_Settle s n o H), (resume_failure o _ (F n o eq_refl)).
      reflexivity.
    + rewrite (step_Settle_idle s n o H); reflexivity.
Qed.

Lemma thread_id_changes_only_on_success_witness :
  let s := run initial [Change (JsString.lit "Hello"); Submit] in
  let o := Fulfilled {| status := 500; parsed := None |} in
  threadIdRef (step s (Settle 0 o)) = threadIdRef s.
Proof.
  apply (thread_id_changes_only_on_success
           (run initial [Change (JsString.lit "Hello"); Submit])
           (Settle 0 (Fulfilled {| status := 500; parsed := None |}))).
  intros n o E; injection E as _ <-; reflexivity.
Defined.

(** ** What a submission sends *)

(** C9.  A valid submission, by click or by Enter, appends a user message and
    issues one request, and both carry the input exactly as typed: the
    trimmed text is only tested, never stored or sent. *)
Theorem submission_keeps_raw_text (s : State) (e : Event) :
  isLoading s = false ->
  JsString.trim (input s) <> [] ->
  e = Submit \/ e = KeyDown enterKey ->
  messages (step s e) =
    messages s ++ [{| text := VStr (input s); sender := user |}] /\
  exists req,
    issued (step s e) = issued s ++ [req] /\
    carriedMessage req = Some (JStr (input s)).
Proof.
  intros L T E.
  assert (S : step s e = handleSend s).
  { destruct E as [->| ->]; [|rewrite step_Enter]; apply submit_valid; auto. }
  rewrite S, (handleSend_valid s T); simpl; split; [reflexivity|].
  eexists; split; [reflexivity|].
  apply carriedMessage_chatRequest.
Qed.

Lemma submission_keeps_raw_text_witness :
  let s := step initial (Change (JsString.lit "  hi  ")) in
  messages (step s Submit) =
    [{| text := VStr (JsString.lit "  hi  "); sender := user |}] /\
  exists req,
    issued (step s Submit) = [req] /\
    carriedMessage req = Some (JStr (JsString.lit "  hi  ")).
Proof.
  apply (submission_keeps_raw_text
           (step initial (Change (JsString.lit "  hi  "))) Submit).
  - reflexivity.
  - simpl; discriminate.
  - left; reflexivity.
Defined.

(** ** Round trips *)

Lemma run_app (s : State) (es es' : list Event) :
  run s (es ++ es') = run (run s es) es'.
Proof. apply fold_left_app. Qed.

(** One round trip from a state at rest. *)
Lemma exchange_run (s : State) (v : jsstring) (o : Settled) :
  isLoading s = false -> inflight s = [] -> JsString.trim v <> [] ->
  run s (exchange (v, o)) =
  handleSend_resume o
    {| messages := messages s ++ [{| text := VStr v; sender := user |}];
       input := [];
       isLoading := true;
       threadIdRef := threadIdRef s;
       inflight := [];
       issued := issued s ++ [chatRequest v (threadIdRef s)] |}.
Proof.
  intros L I T.
  unfold exchange, run; cbn [fold_left fst snd].
  assert (S : step (step s (Change v)) Submit =
              handleSend (setInput v s)).
  { apply submit_valid; [exact L | exact T]. }
  rewrite S, (handleSend_valid (setInput v s) T); cbn [setInput input
    messages isLoading threadIdRef inflight issued].
  rewrite I, step_Settle by (simpl; lia).
  reflexivity.
Qed.

Lemma conversation_run (rounds : list (jsstring * Settled)) (s : State) :
  isLoading s = false -> inflight s = [] ->
  Forall (fun round => JsString.trim (fst round) <> []) rounds ->
  messages (run s (conversation rounds)) = messages s ++ transcript rounds /\
  isLoading (run s (conversation rounds)) = false /\
  inflight (run s (conversation rounds)) = [].
Proof.
  revert s; induction rounds as [|[v o] rounds IH]; intros s L I V.
  - simpl; rewrite app_nil_r; auto.
  - inversion V as [|x l T V']; subst; cbn [fst] in T.
    unfold conversation; cbn [flat_map]; rewrite run_app.
    fold (conversation rounds).
    rewrite (exchange_run s v o L I T).
    set (s0 := {| messages := messages s ++ [{| text := VStr v; sender := user |}];
                  input := []; isLoading := true;
                  threadIdRef := threadIdRef s; inflight := [];
                  issued := issued s ++ [chatRequest v (threadIdRef s)] |}).
    destruct (resume_frame o s0) as (L1 & _ & I1 & _).
    destruct (IH (handleSend_resume o s0) L1 I1 V') as (M & L2 & I2).
    split; [|auto].
    rewrite M; unfold transcript; cbn [flat_map fst snd].
    destruct (success o) as [[reply thread]|] eqn:E.
    + rewrite (resume_success o reply thread s0 E); simpl.
      rewrite <- !app_assoc; reflexivity.
    + rewrite (resume_failure o s0 E); simpl.
      rewrite <- !app_assoc; reflexivity.
Qed.

Lemma transcript_length (rounds : list (jsstring * Settled)) :
  length (transcript rounds) = 2 * length rounds.
Proof.
  induction rounds as [|r rounds IH]; [reflexivity|].
  unfold transcript in *; cbn [flat_map length app]; rewrite IH; lia.
Qed.

Lemma transcript_alternating (rounds : list (jsstring * Settled)) :
  Forall validRound rounds -> alternating (transcript rounds).
Proof.
  induction 1 as [|[v o] rounds [_ S] _ IH]; intros i m.
  - destruct i; discriminate.
  - unfold transcript; cbn [flat_map app fst snd]; fold (transcript rounds).
    destruct i as [|[|i]]; cbn [nth_error].
    + intros E; injection E as <-; reflexivity.
    + intros E; injection E as <-.
      cbn [snd] in S.
      destruct (success o) as [[reply thread]|]; [reflexivity|].
      congruence.
    + intros E; apply (IH i m E).
Qed.

(** C1.  After N rounds, each a valid submission answered by a successful
    response, the message list holds 2N messages whose senders alternate,
    the user first: the user's text, then the server's reply, round after
    round. *)
Theorem successful_rounds_alternate (rounds : list (jsstring * Settled)) :
  Forall validRound rounds ->
  length (messages (run initial (conversation rounds))) = 2 * length rounds /\
  alternating (messages (run initial (conversation rounds))) /\
  messages (run initial (conversation rounds)) = transcript rounds.
Proof.
  intros V.
  assert (T : Forall (fun round => JsString.trim (fst round) <> []) rounds).
  { eapply Forall_impl; [|exact V]. intros r [H _]; exact H. }
  destruct (conversation_run rounds initial eq_refl eq_refl T) as (M & _ & _).
  cbn [initial messages app] in M; rewrite M.
  split; [apply transcript_length|].
  split; [apply transcript_alternating; exact V | reflexivity].
Qed.

Lemma successful_rounds_alternate_witness :
  let reply1 :=
    Fulfilled {| status := 200;
                 parsed := Some (VObj [(JsString.lit "response",
                                        VStr (JsString.lit "Hi there!"));
                                       (JsString.lit "thread_id",
                                        VStr (JsString.lit "t1"))]) |} in
  let reply2 :=
    Fulfilled {| status := 201;
                 parsed := Some (VObj [(JsString.lit "response",
                                        VStr (JsString.lit "Fine."));
                                       (JsString.lit "thread_id",
                                        VStr (JsString.lit "t1"))]) |} in
  let rounds := [(JsString.lit "Hello", reply1);
                 (JsString.lit "How are you?", reply2)] in
  length (messages (run initial (conversation rounds))) = 4 /\
  alternating (messages (run initial (conversation rounds))) /\
  messages (run initial (conversation rounds)) =
    [{| text := VStr (JsString.lit "Hello"); sender := user |};
     {| text := VStr (JsString.lit "Hi there!"); sender := ai |};
     {| text := VStr (JsString.lit "How are you?"); sender := user |};
     {| text := VStr (JsString.lit "Fine."); sender := ai |}].
Proof.
  intros reply1 reply2 rounds.
  apply (successful_rounds_alternate rounds).
  repeat constructor; simpl; discriminate.
Defined.

(** ** The thread identifier *)

Lemma settle_success (s : State) (n : nat) (o : Settled) (reply thread : jsval) :
  n < length (inflight s) ->
  success o = Some (reply, thread) ->
  step s (Settle n o) =
  {| messages := messages s ++ [{| text := reply; sender := ai |}];
     input := input s;
     isLoading := false;
     threadIdRef := thread;
     inflight := remove_nth n (inflight s);
     issued := issued s |}.
Proof.
  intros H E; rewrite (step_Settle s n o H), (resume_success o reply thread _ E).
  reflexivity.
Qed.

(** The request that follows when the page, no request pending, receives the
    text [v] and a click on submit. *)
Lemma next_request (s : State) (v : jsstring) :
  isLoading s = false -> JsString.trim v <> [] ->
  issued (run s [Change v; Submit]) =
  issued s ++ [chatRequest v (threadIdRef s)].
Proof.
  intros L T; unfold run; cbn [fold_left].
  assert (S : step (step s (Change v)) Submit = handleSend (setInput v s)).
  { apply submit_valid; [exact L | exact T]. }
  rewrite S, (handleSend_valid (setInput v s) T); reflexivity.
Qed.



(** ** Which 2xx responses succeed *)

(** Against C6 as stated.  The status is 200 and the body has [response] as a
    string, the empty one: the controller takes the failure path.  It appends
    the fixed message, not the server's string, and keeps the old thread
    identifier. *)
Lemma empty_reply_fails :
  let s := run initial [Change (JsString.lit "Hello"); Submit] in
  let data := VObj [(JsString.lit "response", VStr []);
                    (JsString.lit "thread_id", VStr (JsString.lit "t1"))] in
  let r := {| status := 200; parsed := Some data |} in
  ok r = true /\
  Get data (JsString.lit "response") = Some (VStr []) /\
  messages (step s (Settle 0 (Fulfilled r))) =
    [{| text := VStr (JsString.lit "Hello"); sender := user |}; errorMessage] /\
  messages (step s (Settle 0 (Fulfilled r))) <>
    messages s ++ [{| text := VStr []; sender := ai |}] /\
  threadIdRef (step s (Settle 0 (Fulfilled r))) = VNull.
Proof.
  cbv zeta.
  split; [reflexivity|]. split; [reflexivity|]. split; [reflexivity|].
  split; [|reflexivity].
  vm_compute; discriminate.
Qed.

(** C6, amended.  A 2xx response whose body has [response] as a non-empty
    string takes the success path: the assistant message appended has that
    string as its text, the thread identifier becomes the body's [thread_id],
    the pending flag is cleared.  A 2xx response with a JSON body takes the
    failure path exactly when [response] is absent or falsy, the empty string
    included. *)
Theorem nonempty_reply_succeeds
    (s : State) (n : nat) (r : Response) (data : jsval) :
  n < length (inflight s) ->
  ok r = true ->
  parsed r = Some data ->
  (forall reply,
     Get data (JsString.lit "response") = Some (VStr reply) ->
     reply <> [] ->
     messages (step s (Settle n (Fulfilled r))) =
       messages s ++ [{| text := VStr reply; sender := ai |}] /\
     Get data (JsString.lit "thread_id") =
       Some (threadIdRef (step s (Settle n (Fulfilled r)))) /\
     isLoading (step s (Settle n (Fulfilled r))) = false) /\
  ((exists s', tryBlock (Fulfilled r) s = Throw s') <->
   (forall reply,
      Get data (JsString.lit "response") = Some reply ->
      ToBoolean reply = false)).
Proof.
  intros H K P; split.
  - intros reply G NE.
    destruct (Get_defined data (JsString.lit "response")
                (JsString.lit "thread_id") _ G) as [thread TH].
    assert (E : success (Fulfilled r) = Some (VStr reply, thread)).
    { unfold success; rewrite K, P, G, TH.
      destruct reply; [congruence | reflexivity]. }
    rewrite (settle_success s n _ _ _ H E); cbn [messages threadIdRef isLoading].
    auto.
  - unfold tryBlock; rewrite K, P; cbn [negb].
    destruct (Get data (JsString.lit "response")) as [x|] eqn:G.
    + destruct (Get_defined data (JsString.lit "response")
                  (JsString.lit "thread_id") _ G) as [thread ->].
      destruct (ToBoolean x) eqn:B; split.
      * intros [s' C]; discriminate.
      * intros A; specialize (A x eq_refl); congruence.
      * intros _ reply E; congruence.
      * intros _; eauto.
    + split; [intros _ reply E; discriminate | eauto].
Qed.

Lemma nonempty_reply_succeeds_witness :
  let s := run initial [Change (JsString.lit "Hello"); Submit] in
  let data := VObj [(JsString.lit "response", VStr (JsString.lit "Hi there!"));
                    (JsString.lit "thread_id", VStr (JsString.lit "t1"))] in
  let r := {| status := 200; parsed := Some data |} in
  messages (step s (Settle 0 (Fulfilled r))) =
    messages s ++ [{| text := VStr (JsString.lit "Hi there!"); sender := ai |}] /\
  Get data (JsString.lit "thread_id") =
    Some (threadIdRef (step s (Settle 0 (Fulfilled r)))) /\
  isLoading (step s (Settle 0 (Fulfilled r))) = false.
Proof.
  intros s data r.
  refine (proj1 (nonempty_reply_succeeds s 0 r data _ _ _)
                (JsString.lit "Hi there!") _ _).
  - simpl; lia.
  - reflexivity.
  - reflexivity.
  - reflexivity.
  - simpl; discriminate.
Defined.

(** Against C10 as stated.  The first response succeeds and has no
    [thread_id]: the stored identifier becomes [undefined].  The next request
    does not carry it: [JSON.stringify] leaves out a property whose value is
    [undefined], so the body has the [message] member alone. *)
Lemma undefined_thread_not_carried :
  let data := VObj [(JsString.lit "response", VStr (JsString.lit "Hi there!"))] in
  let r := {| status := 200; parsed := Some data |} in
  let s1 := run initial [Change (JsString.lit "Hello"); Submit;
                         Settle 0 (Fulfilled r)] in
  let s2 := run s1 [Change (JsString.lit "More"); Submit] in
  threadIdRef s1 = VUndefined /\
  exists first next,
    issued s2 = [first; next] /\
    body next = Some (JObj [(JsString.lit "message",
                             JStr (JsString.lit "More"))]) /\
    carriedThread next = None.
Proof.
  cbv zeta; split; [reflexivity|].
  do 2 eexists; split; [reflexivity|].
  split; reflexivity.
Qed.

(** C10, amended.  On the success path the stored thread identifier is
    replaced by the body's [thread_id] as it is, with no check.  When the
    body is an object without [thread_id], the stored identifier becomes
    [undefined], and the next request has no [thread_id] member at all: its
    body holds the message alone. *)
Theorem thread_id_replaced_unchecked
    (s : State) (n : nat) (r : Response) (data reply : jsval) (v : jsstring) :
  n < length (inflight s) ->
  ok r = true ->
  parsed r = Some data ->
  Get data (JsString.lit "response") = Some reply ->
  ToBoolean reply = true ->
  JsString.trim v <> [] ->
  Get data (JsString.lit "thread_id") =
    Some (threadIdRef (step s (Settle n (Fulfilled r)))) /\
  (forall props,
     data = VObj props ->
     assoc (JsString.lit "thread_id") props = None ->
     threadIdRef (step s (Settle n (Fulfilled r))) = VUndefined /\
     exists req,
       issued (run (step s (Settle n (Fulfilled r))) [Change v; Submit])
         = issued s ++ [req] /\
       body req = Some (JObj [(JsString.lit "message", JStr v)]) /\
       carriedThread req = None).
Proof.
  intros H K P G B T.
  destruct (Get_defined data (JsString.lit "response")
              (JsString.lit "thread_id") _ G) as [thread TH].
  assert (E : success (Fulfilled r) = Some (reply, thread)).
  { unfold success; rewrite K, P, G, TH, B; reflexivity. }
  rewrite (settle_success s n _ _ _ H E); cbn [threadIdRef].
  split; [exact TH|].
  intros props -> A.
  unfold Get in TH; rewrite A in TH; injection TH as <-.
  split; [reflexivity|].
  rewrite next_request by (auto; reflexivity).
  eexists; split; [reflexivity|].
  split; reflexivity.
Qed.

Lemma thread_id_replaced_unchecked_witness :
  let s := run initial [Change (JsString.lit "Hello"); Submit] in
  let data := VObj [(JsString.lit "response", VStr (JsString.lit "Hi there!"))] in
  let r := {| status := 200; parsed := Some data |} in
  threadIdRef (step s (Settle 0 (Fulfilled r))) = VUndefined /\
  exists req,
    issued (run (step s (Settle 0 (Fulfilled r)))
                [Change (JsString.lit "More"); Submit])
      = issued s ++ [req] /\
    body req = Some (JObj [(JsString.lit "message",
                            JStr (JsString.lit "More"))]) /\
    carriedThread req = None.
Proof.
  intros s data r.
  refine (proj2 (thread_id_replaced_unchecked s 0 r data
                   (VStr (JsString.lit "Hi there!")) (JsString.lit "More")
                   _ _ _ _ _ _)
                [(JsString.lit "response", VStr (JsString.lit "Hi there!"))]
                _ _).
  - simpl; lia.
  - reflexivity.
  - reflexivity.
  - reflexivity.
  - reflexivity.
  - simpl; discriminate.
  - reflexivity.
  - reflexivity.
Defined.

(** * Further properties of the page *)

(** ** The guard, read on the text *)

Lemma blank_or_visible (v : jsstring) :
  forallb JsString.isWhiteSpace v = true \/ visible v.
Proof.
  induction v as [|c r [IH|[x [I W]]]].
  - left; reflexivity.
  - destruct (JsString.isWhiteSpace c) eqn:W.
    + left; simpl; rewrite W; exact IH.
    + right; exists c; split; [left; reflexivity | exact W].
  - right; exists x; split; [right; exact I | exact W].
Qed.

Lemma visible_trim (v : jsstring) : visible v <-> JsString.trim v <> [].
Proof.
  rewrite trim_nil; split.
  - intros [c [I W]] A.
    rewrite forallb_forall in A; rewrite (A c I) in W; discriminate.
  - intros N; destruct (blank_or_visible v) as [B|V]; [contradiction|exact V].
Qed.

Lemma snoc_neq {A : Type} (l : list A) (x : A) : l ++ [x] <> l.
Proof.
  intros E; apply (f_equal (@length A)) in E.
  rewrite length_app in E; simpl in E; lia.
Qed.

(** X1.  A click on submit, or Enter, issues a request exactly when no request
    is pending and the text has a code unit that is not white space. *)
Theorem request_iff_visible_text (s : State) (e : Event) :
  e = Submit \/ e = KeyDown enterKey ->
  (issued (step s e) <> issued s <-> isLoading s = false /\ visible (input s)).
Proof.
  intros E.
  assert (S : step s e = step s Submit).
  { destruct E as [->| ->]; [reflexivity | apply step_Enter]. }
  rewrite S, visible_trim; split.
  - intros C.
    destruct (attempt_effect s Submit eq_refl) as [N|(L & T & _)]; [|auto].
    rewrite N in C; contradiction.
  - intros [L T].
    rewrite (submit_valid s L T), (handleSend_valid s T); simpl.
    apply snoc_neq.
Qed.

Lemma request_iff_visible_text_witness :
  let s := step initial (Change (JsString.lit " a ")) in
  issued (step s Submit) <> issued s.
Proof.
  intros s.
  apply (proj2 (request_iff_visible_text s Submit (or_introl eq_refl))).
  split; [reflexivity|].
  exists 97%N; split; [simpl; auto | reflexivity].
Defined.

(** X2.  The submit button and the submit handler agree.  When the button is
    disabled a submit event changes nothing; when it is enabled the event
    appends the user's message, empties the input, raises the pending flag
    and issues one request. *)
Theorem submit_follows_button (s : State) :
  if ChatInput.buttonDisabled (input s) (isLoading s)
  then step s Submit = s
  else step s Submit =
       {| messages :=
            messages s ++ [{| text := VStr (input s); sender := user |}];
          input := [];
          isLoading := true;
          threadIdRef := threadIdRef s;
          inflight := inflight s ++ [chatRequest (input s) (threadIdRef s)];
          issued := issued s ++ [chatRequest (input s) (threadIdRef s)] |}.
Proof.
  unfold ChatInput.buttonDisabled.
  destruct (isLoading s) eqn:L; cbn [orb].
  - apply attempt_while_loading; [exact L | reflexivity].
  - destruct (JsString.truthy (JsString.trim (input s))) eqn:T; cbn [negb].
    + apply truthy_trim in T.
      rewrite (submit_valid s L T); apply handleSend_valid; exact T.
    + apply attempt_when_empty; [|reflexivity].
      destruct (JsString.trim (input s)); [reflexivity | discriminate].
Qed.

(** X3.  What the two handlers of the input control do.  A key press has its
    default action prevented exactly when it is Enter without shift, so every
    other key still types; a form submission always has it prevented; and
    [onSend] is called at most once, never without [preventDefault] before
    it. *)
Theorem handlers_prevent_default
    (value : jsstring) (loading : bool) (event : ChatInput.KeyboardEvent) :
  (In ChatInput.PreventDefault (ChatInput.handleKeyDown value loading event)
   <-> ChatInput.key event = JsString.lit "Enter" /\
       ChatInput.shiftKey event = false) /\
  (ChatInput.handleKeyDown value loading event = [] \/
   ChatInput.handleKeyDown value loading event
     = ChatInput.handleSubmit value loading) /\
  (ChatInput.handleSubmit value loading = [ChatInput.PreventDefault] \/
   ChatInput.handleSubmit value loading
     = [ChatInput.PreventDefault; ChatInput.OnSend]).
Proof.
  unfold ChatInput.handleKeyDown, ChatInput.handleSubmit.
  rewrite <- eqb_eq.
  destruct (JsString.eqb (ChatInput.key event) (JsString.lit "Enter"));
    destruct (ChatInput.shiftKey event);
    destruct (negb loading && JsString.truthy (JsString.trim value));
    cbn [andb negb In]; intuition congruence.
Qed.

(** ** Settlements *)

Lemma tryBlock_throw_early (o : Settled) (s s' : State) :
  tryBlock o s = Throw s' -> s' = s.
Proof.
  unfold tryBlock.
  destruct o as [|r]; [intros E; injection E; auto|].
  destruct (negb (ok r)); [intros E; injection E; auto|].
  destruct (parsed r) as [data|]; [|intros E; injection E; auto].
  destruct (Get data (JsString.lit "response")) as [x|] eqn:G;
    [|intros E; injection E; auto].
  destruct (Get_defined data (JsString.lit "response")
              (JsString.lit "thread_id") _ G) as [thread ->].
  destruct (ToBoolean x); [discriminate | intros E; injection E; auto].
Qed.

(** What a settlement does to the page, whatever the outcome. *)
Lemma settle_effect (s : State) (n : nat) (o : Settled) :
  n < length (inflight s) ->
  exists m,
    sender m = ai /\
    step s (Settle n o) =
    {| messages := messages s ++ [m];
       input := input s;
       isLoading := false;
       threadIdRef := threadIdRef (step s (Settle n o));
       inflight := remove_nth n (inflight s);
       issued := issued s |}.
Proof.
  intros H.
  destruct (success o) as [[reply thread]|] eqn:E.
  - rewrite (settle_success s n o reply thread H E).
    eexists; split; [|reflexivity]; reflexivity.
  - rewrite (step_Settle s n o H), (resume_failure o _ E).
    exists errorMessage; split; reflexivity.
Qed.

(** X4.  Every settlement of a request in flight, success or failure, appends
    exactly one assistant message, clears the pending flag, takes the request
    out of flight, and leaves the typed text and the log of requests alone.
    The reply and the apology never come together: when the [try] block
    throws, it has not changed the state. *)
Theorem settlement_appends_one (s : State) (n : nat) (o : Settled) :
  n < length (inflight s) ->
  (exists m, messages (step s (Settle n o)) = messages s ++ [m] /\
             sender m = ai) /\
  isLoading (step s (Settle n o)) = false /\
  input (step s (Settle n o)) = input s /\
  length (inflight (step s (Settle n o))) = length (inflight s) - 1 /\
  issued (step s (Settle n o)) = issued s /\
  (forall s', tryBlock o s = Throw s' -> s' = s).
Proof.
  intros H.
  destruct (settle_effect s n o H) as (m & A & ->); cbn [messages isLoading
    input inflight issued].
  split; [exists m; auto|].
  repeat split; [apply remove_nth_length; exact H | apply tryBlock_throw_early].
Qed.

Lemma settlement_appends_one_witness :
  let s := run initial [Change (JsString.lit "Hello"); Submit] in
  let o := Fulfilled {| status := 200; parsed := Some VNull |} in
  exists m, messages (step s (Settle 0 o)) = messages s ++ [m] /\
            sender m = ai.
Proof.
  intros s o.
  refine (proj1 (settlement_appends_one s 0 o _)).
  simpl; lia.
Defined.

(** ** Invariants over every run of events *)

Lemma alternating_snoc (l : list Message) (m : Message) :
  alternating l ->
  sender m = (if Nat.even (length l) then user else ai) ->
  alternating (l ++ [m]).
Proof.
  intros A S i m' E.
  destruct (Nat.lt_ge_cases i (length l)) as [H|H].
  - rewrite nth_error_app1 in E by exact H; apply (A i m' E).
  - rewrite nth_error_app2 in E by exact H.
    destruct (i - length l) as [|k] eqn:D; cbn [nth_error] in E.
    + injection E as <-.
      replace i with (length l) by lia; exact S.
    + destruct k; discriminate.
Qed.

Lemma odd_snoc {A : Type} (l : list A) (x : A) :
  Nat.odd (length (l ++ [x])) = negb (Nat.odd (length l)).
Proof.
  rewrite length_app, Nat.add_1_r, Nat.odd_succ, <- Nat.negb_odd; reflexivity.
Qed.

Lemma step_turnTaking (s : State) (e : Event) :
  oneAtATime s -> turnTaking s -> turnTaking (step s e).
Proof.
  unfold oneAtATime, turnTaking.
  intros I [A P].
  assert (SEND : isLoading s = false -> JsString.trim (input s) <> [] ->
                 alternating (messages (handleSend s)) /\
                 Nat.odd (length (messages (handleSend s)))
                   = isLoading (handleSend s)).
  { intros L T; rewrite (handleSend_valid s T); cbn [messages isLoading].
    rewrite odd_snoc, P, L; split; [|reflexivity].
    apply alternating_snoc; [exact A|].
    rewrite <- Nat.negb_odd, P, L; reflexivity. }
  destruct e as [v|k| |n o].
  - split; assumption.
  - destruct (attempt_effect s (KeyDown k) eq_refl) as [->|(L & T & ->)]; auto.
  - destruct (attempt_effect s Submit eq_refl) as [->|(L & T & ->)]; auto.
  - destruct (Nat.lt_ge_cases n (length (inflight s))) as [H|H].
    + destruct (settle_effect s n o H) as (m & M & ->);
        cbn [messages isLoading].
      assert (L : isLoading s = true).
      { destruct (isLoading s); [reflexivity|]. rewrite I in H; lia. }
      rewrite odd_snoc, P, L; split; [|reflexivity].
      apply alternating_snoc; [exact A|].
      rewrite <- Nat.negb_odd, P, L; exact M.
    + rewrite (step_Settle_idle s n o H); split; assumption.
Qed.

Lemma run_turnTaking (es : list Event) (s : State) :
  oneAtATime s -> turnTaking s -> turnTaking (run s es).
Proof.
  revert s; induction es as [|e es IH]; intros s I T; [exact T|].
  apply IH; [apply step_oneAtATime, I | apply step_turnTaking; assumption].
Qed.

Lemma initial_turnTaking : turnTaking initial.
Proof.
  split; [|reflexivity].
  intros [|i] m E; discriminate.
Qed.

(** X5.  Whatever the events and however each request ends, the message list
    alternates, the user first, and its length is odd exactly while a request
    is pending: a user message never follows a user message, and every user
    message but a pending one has its answer or its apology right after. *)
Theorem turns_alternate_on_every_run (es : list Event) :
  alternating (messages (run initial es)) /\
  Nat.odd (length (messages (run initial es))) = isLoading (run initial es).
Proof.
  apply run_turnTaking; [reflexivity | apply initial_turnTaking].
Qed.

Lemma step_flightIsLast (s : State) (e : Event) :
  flightIsLast s -> flightIsLast (step s e).
Proof.
  unfold flightIsLast; intros I.
  destruct e as [v|k| |n o].
  - exact I.
  - destruct (attempt_effect s (KeyDown k) eq_refl) as [->|(L & T & ->)];
      [exact I|].
    rewrite (handleSend_valid s T); cbn [isLoading issued inflight].
    rewrite L in I; rewrite I; do 2 eexists; split; reflexivity.
  - destruct (attempt_effect s Submit eq_refl) as [->|(L & T & ->)];
      [exact I|].
    rewrite (handleSend_valid s T); cbn [isLoading issued inflight].
    rewrite L in I; rewrite I; do 2 eexists; split; reflexivity.
  - destruct (Nat.lt_ge_cases n (length (inflight s))) as [H|H].
    + destruct (settle_effect s n o H) as (m & _ & ->);
        cbn [isLoading inflight].
      destruct (isLoading s).
      * destruct I as (earlier & r & _ & F); rewrite F in H |- *.
        destruct n; [reflexivity | simpl in H; lia].
      * rewrite I in H; simpl in H; lia.
    + rewrite (step_Settle_idle s n o H); exact I.
Qed.

(** X6.  The pending flag follows the network exactly.  On every run, while
    the flag is set one request is in flight, the last one issued; while it
    is clear none is. *)
Theorem pending_flag_tracks_flight (es : list Event) :
  if isLoading (run initial es)
  then exists earlier r,
         issued (run initial es) = earlier ++ [r] /\
         inflight (run initial es) = [r]
  else inflight (run initial es) = [].
Proof.
  change (flightIsLast (run initial es)).
  assert (G : forall l s, flightIsLast s -> flightIsLast (run s l)).
  { induction l as [|e l IH]; intros s I; [exact I|].
    apply IH, step_flightIsLast, I. }
  apply G; reflexivity.
Qed.

(** ** The list only grows *)

Lemma step_appends (s : State) (e : Event) :
  exists more, messages (step s e) = messages s ++ more.
Proof.
  assert (SEND : exists more, messages (handleSend s) = messages s ++ more).
  { destruct (handleSend_cases s) as [->|[_ ->]]; cbn [messages].
    - exists []; rewrite app_nil_r; reflexivity.
    - eexists; reflexivity. }
  assert (SAME : exists more, messages s = messages s ++ more).
  { exists []; rewrite app_nil_r; reflexivity. }
  destruct e as [v|k| |n o].
  - exact SAME.
  - destruct (attempt_effect s (KeyDown k) eq_refl) as [->|(_ & _ & ->)]; auto.
  - destruct (attempt_effect s Submit eq_refl) as [->|(_ & _ & ->)]; auto.
  - destruct (Nat.lt_ge_cases n (length (inflight s))) as [H|H].
    + destruct (settle_effect s n o H) as (m & _ & ->); cbn [messages].
      eexists; reflexivity.
    + rewrite (step_Settle_idle s n o H); exact SAME.
Qed.

Lemma mapBubbles_app (i : nat) (l l' : list Message) :
  mapBubbles i (l ++ l') = mapBubbles i l ++ mapBubbles (i + length l) l'.
Proof.
  revert i; induction l as [|m l IH]; intros i; cbn [app mapBubbles length].
  - rewrite Nat.add_0_r; reflexivity.
  - rewrite IH, Nat.add_succ_r; reflexivity.
Qed.

(** X7.  No event removes, replaces or reorders a message: after any events
    the old list is a prefix of the new one.  So every bubble already on the
    page keeps its key, the index, and its content; new bubbles come after
    it. *)
Theorem messages_only_grow (s : State) (es : list Event) :
  exists more,
    messages (run s es) = messages s ++ more /\
    mapBubbles 0 (messages (run s es)) =
      mapBubbles 0 (messages s) ++ mapBubbles (length (messages s)) more.
Proof.
  assert (G : exists more, messages (run s es) = messages s ++ more).
  { revert s; induction es as [|e es IH]; intros s.
    - exists []; rewrite app_nil_r; reflexivity.
    - destruct (IH (step s e)) as [more2 E2].
      destruct (step_appends s e) as [more1 E1].
      exists (more1 ++ more2).
      change (run s (e :: es)) with (run (step s e) es).
      rewrite E2, E1, app_assoc; reflexivity. }
  destruct G as [more E]; exists more; split; [exact E|].
  rewrite E, mapBubbles_app; reflexivity.
Qed.

(** ** Requests and user messages *)

Lemma filter_snoc {A : Type} (p : A -> bool) (l : list A) (x : A) :
  filter p (l ++ [x]) = filter p l ++ (if p x then [x] else []).
Proof. rewrite filter_app; reflexivity. Qed.

Lemma step_requests_match (s : State) (e : Event) :
  map carriedMessage (issued s) =
    map (fun m => SerializeJSONProperty (text m))
        (filter fromUser (messages s)) ->
  map carriedMessage (issued (step s e)) =
    map (fun m => SerializeJSONProperty (text m))
        (filter fromUser (messages (step s e))).
Proof.
  intros I.
  assert (SEND : JsString.trim (input s) <> [] ->
    map carriedMessage (issued (handleSend s)) =
    map (fun m => SerializeJSONProperty (text m))
        (filter fromUser (messages (handleSend s)))).
  { intros T; rewrite (handleSend_valid s T); cbn [issued messages].
    rewrite filter_snoc, !map_app, I; reflexivity. }
  destruct e as [v|k| |n o].
  - exact I.
  - destruct (attempt_effect s (KeyDown k) eq_refl) as [->|(_ & T & ->)]; auto.
  - destruct (attempt_effect s Submit eq_refl) as [->|(_ & T & ->)]; auto.
  - destruct (Nat.lt_ge_cases n (length (inflight s))) as [H|H].
    + destruct (settle_effect s n o H) as (m & M & ->); cbn [issued messages].
      rewrite filter_snoc; unfold fromUser at 2; rewrite M, app_nil_r.
      exact I.
    + rewrite (step_Settle_idle s n o H); exact I.
Qed.

(** X8.  The requests issued and the user messages shown correspond one to
    one and in order: on every run, the [message] members of the requests
    are the texts of the user messages of the list. *)
Theorem requests_match_user_messages (es : list Event) :
  map carriedMessage (issued (run initial es)) =
  map (fun m => SerializeJSONProperty (text m))
      (filter fromUser (messages (run initial es))).
Proof.
  assert (G : forall l s,
    map carriedMessage (issued s) =
      map (fun m => SerializeJSONProperty (text m))
          (filter fromUser (messages s)) ->
    map carriedMessage (issued (run s l)) =
      map (fun m => SerializeJSONProperty (text m))
          (filter fromUser (messages (run s l)))).
  { induction l as [|e l IH]; intros s I; [exact I|].
    apply IH, step_requests_match, I. }
  apply G; reflexivity.
Qed.

Lemma chatCall_chatRequest (v : jsstring) (thread : jsval) :
  JsString.trim v <> [] -> chatCall (chatRequest v thread).
Proof.
  intros T; repeat split.
  unfold chatRequest, JSON_stringify; cbn [body SerializeJSONProperty].
  do 2 eexists; split; [reflexivity | apply visible_trim; exact T].
Qed.

Lemma step_chatCalls (s : State) (e : Event) :
  Forall chatCall (issued s) -> Forall chatCall (issued (step s e)).
Proof.
  intros I.
  assert (SEND : JsString.trim (input s) <> [] ->
                 Forall chatCall (issued (handleSend s))).
  { intros T; rewrite (handleSend_valid s T); cbn [issued].
    apply Forall_app; split; [exact I|].
    constructor; [apply chatCall_chatRequest; exact T | constructor]. }
  destruct e as [v|k| |n o].
  - exact I.
  - destruct (attempt_effect s (KeyDown k) eq_refl) as [->|(_ & T & ->)]; auto.
  - destruct (attempt_effect s Submit eq_refl) as [->|(_ & T & ->)]; auto.
  - destruct (Nat.lt_ge_cases n (length (inflight s))) as [H|H].
    + destruct (settle_effect s n o H) as (m & _ & ->); exact I.
    + rewrite (step_Settle_idle s n o H); exact I.
Qed.

(** X9.  Every request the page ever issues is a POST to the chat endpoint
    with the JSON content type, and its body is an object whose first member
    is [message], a string with a code unit that is not white space: a blank
    message is never sent. *)
Theorem every_request_is_a_chat_call (es : list Event) :
  Forall chatCall (issued (run initial es)).
Proof.
  assert (G : forall l s, Forall chatCall (issued s) ->
                          Forall chatCall (issued (run s l))).
  { induction l as [|e l IH]; intros s I; [exact I|].
    apply IH, step_chatCalls, I. }
  apply G; constructor.
Qed.

(** ** The thread across rounds *)

Lemma serialize_undefined (v : jsval) :
  SerializeJSONProperty v = None <-> v = VUndefined.
Proof.
  destruct v; simpl; split; congruence.
Qed.

(** X10.  A valid [handleSend] sends the stored thread identifier as
    [JSON.stringify] writes it: the request has no [thread_id] member exactly
    when the stored identifier is [undefined], a stored string or [null] is
    sent as it is, and a stored number that is not finite is sent as
    [null]. *)
Theorem thread_member_follows_ref (s : State) :
  JsString.trim (input s) <> [] ->
  exists req,
    issued (handleSend s) = issued s ++ [req] /\
    (carriedThread req = None <-> threadIdRef s = VUndefined) /\
    (forall t, threadIdRef s = VStr t -> carriedThread req = Some (JStr t)) /\
    (threadIdRef s = VNull -> carriedThread req = Some JNull) /\
    (forall sign, threadIdRef s = VNum (S754_infinity sign) ->
                  carriedThread req = Some JNull).
Proof.
  intros T; rewrite (handleSend_valid s T); cbn [issued].
  eexists; split; [reflexivity|].
  rewrite carriedThread_chatRequest.
  split; [apply serialize_undefined|].
  repeat split; intros; match goal with E : threadIdRef s = _ |- _ =>
    rewrite E; reflexivity end.
Qed.

Lemma thread_member_follows_ref_witness :
  let s := step initial (Change (JsString.lit "Hello")) in
  exists req,
    issued (handleSend s) = issued s ++ [req] /\
    carriedThread req = Some JNull.
Proof.
  intros s.
  destruct (thread_member_follows_ref s) as (req & I & _ & _ & N & _).
  - simpl; discriminate.
  - exists req; split; [exact I | apply N; reflexivity].
Defined.

(** X11.  A failed round trip does not lose the thread.  From a page at rest,
    when a round fails and the user sends again, both requests carry the same
    thread identifier, and the stored one is what it was. *)
Theorem retry_keeps_thread (s : State) (v1 v2 : jsstring) (o : Settled) :
  isLoading s = false ->
  inflight s = [] ->
  JsString.trim v1 <> [] ->
  JsString.trim v2 <> [] ->
  success o = None ->
  exists r1 r2,
    issued (run s (exchange (v1, o) ++ [Change v2; Submit]))
      = issued s ++ [r1; r2] /\
    carriedThread r1 = carriedThread r2 /\
    carriedMessage r1 = Some (JStr v1) /\
    carriedMessage r2 = Some (JStr v2) /\
    threadIdRef (run s (exchange (v1, o))) = threadIdRef s.
Proof.
  intros L I T1 T2 F.
  rewrite run_app, (exchange_run s v1 o L I T1), (resume_failure o _ F).
  rewrite next_request by (auto; reflexivity); cbn [issued threadIdRef].
  exists (chatRequest v1 (threadIdRef s)), (chatRequest v2 (threadIdRef s)).
  rewrite <- app_assoc, !carriedThread_chatRequest.
  repeat split.
Qed.

Lemma retry_keeps_thread_witness :
  exists r1 r2,
    issued (run initial (exchange (JsString.lit "Hello", Rejected)
                         ++ [Change (JsString.lit "Hello?"); Submit]))
      = [r1; r2] /\
    carriedThread r1 = carriedThread r2.
Proof.
  destruct (retry_keeps_thread initial (JsString.lit "Hello")
              (JsString.lit "Hello?") Rejected)
    as (r1 & r2 & I & E & _); try reflexivity; try (simpl; discriminate).
  exists r1, r2; split; [exact I | exact E].
Defined.

(** ** One request for each text typed *)

Lemma step_quiet (s : State) (e : Event) :
  input s = [] -> notTyping e ->
  input (step s e) = [] /\ issued (step s e) = issued s.
Proof.
  intros E N.
  assert (B : JsString.trim (input s) = []) by (rewrite E; reflexivity).
  destruct e as [v|k| |n o]; [contradiction| | |].
  - rewrite (attempt_when_empty s (KeyDown k) B eq_refl); auto.
  - rewrite (attempt_when_empty s Submit B eq_refl); auto.
  - destruct (Nat.lt_ge_cases n (length (inflight s))) as [H|H].
    + destruct (settle_effect s n o H) as (m & _ & ->); cbn [input issued].
      auto.
    + rewrite (step_Settle_idle s n o H); auto.
Qed.

Lemma run_quiet (es : list Event) (s : State) :
  input s = [] -> Forall notTyping es -> issued (run s es) = issued s.
Proof.
  revert s; induction es as [|e es IH]; intros s E N; [reflexivity|].
  inversion N as [|x l N1 N2]; subst.
  destruct (step_quiet s e E N1) as [E' I'].
  change (run s (e :: es)) with (run (step s e) es).
  rewrite (IH (step s e) E' N2); exact I'.
Qed.

(** X12.  A text is sent once.  After a valid submit, no sequence of key
    presses, clicks and settlements issues another request: the input was
    emptied, and nothing is sent until the user types again. *)
Theorem one_request_per_text (s : State) (es : list Event) :
  isLoading s = false ->
  JsString.trim (input s) <> [] ->
  Forall notTyping es ->
  issued (run s (Submit :: es)) =
    issued s ++ [chatRequest (input s) (threadIdRef s)].
Proof.
  intros L T N.
  change (run s (Submit :: es)) with (run (step s Submit) es).
  rewrite run_quiet; [| |exact N];
    rewrite (submit_valid s L T), (handleSend_valid s T); reflexivity.
Qed.

Lemma one_request_per_text_witness :
  let s := step initial (Change (JsString.lit "Hello")) in
  issued (run s [Submit; KeyDown enterKey; Submit; Settle 0 Rejected; Submit])
  = issued s ++ [chatRequest (input s) (threadIdRef s)].
Proof.
  intros s.
  apply (one_request_per_text s
           [KeyDown enterKey; Submit; Settle 0 Rejected; Submit]).
  - reflexivity.
  - simpl; discriminate.
  - repeat constructor.
Defined.

(** ** The view *)

(** X13.  A bubble tells its message: two messages with the same bubble have
    the same text and the same sender.  In particular the user's and the
    assistant's bubbles differ even when the texts are equal. *)
Theorem ChatBubble_injective (m1 m2 : Message) :
  ChatBubble m1 = ChatBubble m2 -> m1 = m2.
Proof.
  destruct m1 as [t1 [|]], m2 as [t2 [|]]; unfold ChatBubble; cbn;
    intros E; try discriminate; injection E as ->; reflexivity.
Qed.

Lemma ChatBubble_injective_witness :
  {| text := VStr (JsString.lit "Hi"); sender := ai |} =
  {| text := VStr (JsString.lit "Hi"); sender := ai |}.
Proof.
  apply (ChatBubble_injective
           {| text := VStr (JsString.lit "Hi"); sender := ai |}
           {| text := VStr (JsString.lit "Hi"); sender := ai |}).
  reflexivity.
Defined.

Lemma forallb_false_In {A : Type} (p : A -> bool) (l : list A) :
  forallb p l = false <-> exists x, In x l /\ p x = false.
Proof.
  induction l as [|a l IH]; cbn [forallb In].
  - split; [discriminate | intros [x [[] _]]].
  - destruct (p a) eqn:P; cbn [andb].
    + rewrite IH; split.
      * intros [x [I F]]; exists x; auto.
      * intros [x [[<-|I] F]]; [congruence | exists x; auto].
    + split; [intros _; exists a; auto | reflexivity].
Qed.

Lemma run_appends (es : list Event) (s : State) :
  exists more, messages (run s es) = messages s ++ more.
Proof.
  revert s; induction es as [|e es IH]; intros s.
  - exists []; rewrite app_nil_r; reflexivity.
  - destruct (IH (step s e)) as [more2 E2].
    destruct (step_appends s e) as [more1 E1].
    exists (more1 ++ more2).
    change (run s (e :: es)) with (run (step s e) es).
    rewrite E2, E1, app_assoc; reflexivity.
Qed.

(** What the user wrote is always a valid child: it is a string. *)
Lemma step_userTexts (s : State) (e : Event) :
  Forall (fun m => sender m = user -> validChild (text m) = true)
         (messages s) ->
  Forall (fun m => sender m = user -> validChild (text m) = true)
         (messages (step s e)).
Proof.
  intros I.
  assert (SEND : JsString.trim (input s) <> [] ->
    Forall (fun m => sender m = user -> validChild (text m) = true)
           (messages (handleSend s))).
  { intros T; rewrite (handleSend_valid s T); cbn [messages].
    apply Forall_app; split; [exact I|].
    constructor; [reflexivity | constructor]. }
  destruct e as [v|k| |n o].
  - exact I.
  - destruct (attempt_effect s (KeyDown k) eq_refl) as [->|(_ & T & ->)]; auto.
  - destruct (attempt_effect s Submit eq_refl) as [->|(_ & T & ->)]; auto.
  - destruct (Nat.lt_ge_cases n (length (inflight s))) as [H|H].
    + destruct (settle_effect s n o H) as (m & M & ->); cbn [messages].
      apply Forall_app; split; [exact I|].
      constructor; [rewrite M; discriminate | constructor].
    + rewrite (step_Settle_idle s n o H); exact I.
Qed.

Lemma run_userTexts (es : list Event) (s : State) :
  Forall (fun m => sender m = user -> validChild (text m) = true)
         (messages s) ->
  Forall (fun m => sender m = user -> validChild (text m) = true)
         (messages (run s es)).
Proof.
  revert s; induction es as [|e es IH]; intros s I; [exact I|].
  apply IH, step_userTexts, I.
Qed.

(** X14.  What the conversation column shows on every run.  The render
    throws exactly when the text of an assistant message is refused as a
    child: it is, or holds, a plain object, which only a reply of the server
    can be.  When the column renders, it rendered at every earlier point of
    the run, and it shows: with no message the hint and nothing else, never
    the pending bubble; otherwise the bubbles in order, then the pending
    bubble while a request is pending.  The senders of the bubbles alternate,
    the pending bubble taking the assistant's turn after the user's
    message. *)
Theorem view_on_every_run (es : list Event) :
  (renderColumn (run initial es) = None <->
   exists m, In m (messages (run initial es)) /\
             sender m = ai /\
             validChild (text m) = false /\
             m <> errorMessage) /\
  (forall view,
     renderColumn (run initial es) = Some view ->
     view =
       match messages (run initial es) with
       | [] => [(None, emptyHint)]
       | _ :: _ =>
           mapBubbles 0 (messages (run initial es))
           ++ (if isLoading (run initial es)
               then [(None, ChatBubble thinking)] else [])
       end /\
     forall before after,
       es = before ++ after -> renderColumn (run initial before) <> None) /\
  alternating
    (messages (run initial es)
     ++ (if isLoading (run initial es) then [thinking] else [])).
Proof.
  assert (T : turnTaking (run initial es)).
  { apply run_turnTaking; [reflexivity | apply initial_turnTaking]. }
  assert (U : Forall (fun m => sender m = user -> validChild (text m) = true)
                     (messages (run initial es))).
  { apply run_userTexts; constructor. }
  destruct T as [A P]; unfold renderColumn; split; [|split].
  - destruct (forallb (fun m => validChild (text m))
                      (messages (run initial es))) eqn:F.
    + split; [discriminate|].
      intros (m & I & _ & V & _).
      rewrite forallb_forall in F; rewrite (F m I) in V; discriminate.
    + split; [intros _ | reflexivity].
      apply forallb_false_In in F; destruct F as (m & I & V).
      exists m; repeat split; [exact I | | exact V |].
      * rewrite Forall_forall in U; specialize (U m I).
        destruct (sender m); [|reflexivity].
        rewrite (U eq_refl) in V; discriminate.
      * intros ->; discriminate.
  - intros view R.
    destruct (forallb (fun m => validChild (text m))
                      (messages (run initial es))) eqn:F; [|discriminate].
    injection R as <-; split.
    + unfold conversationView.
      destruct (messages (run initial es)) as [|m l]; [|reflexivity].
      rewrite <- P; reflexivity.
    + intros before after -> N.
      rewrite run_app in F.
      destruct (run_appends after (run initial before)) as [more E].
      rewrite E, forallb_app in F.
      apply andb_true_iff in F; destruct F as [F _].
      rewrite F in N; discriminate.
  - destruct (isLoading (run initial es)).
    + apply alternating_snoc; [exact A|].
      rewrite <- Nat.negb_odd, P; reflexivity.
    + rewrite app_nil_r; exact A.
Qed.
